(** * MNIST dataset ops: registration layer and record decoder

    Source under verification: [tensorflow_io/mnist/ops/dataset_ops.cc].
    The file registers two dataset ops with the TensorFlow op registry and
    gives each a shape-inference function.  The first part of this
    development embeds those two registrations; the second part models the
    record decoder that the specification describes for the kernels behind
    the ops. *)

From Stdlib Require Import ZArith NArith Ascii Lia.
From Stdlib Require Strings.Byte.
From stdpp Require Import base option list strings gmap.

Local Open Scope string_scope.

(** ** The framework interface used by the source

    [dataset_ops.cc] includes [op.h], [shape_inference.h] and
    [common_shape_fns.h] from TensorFlow.  None of these headers is part of
    the repository, so the pieces of them that the two registrations call
    are modelled here. *)

Module tensorflow.

(** Modelled from the spec: the element types an op signature can name
    ("declaring input/output signatures"); the framework's [DataType]
    enumeration is not in the repository. *)
Inductive DataType : Type :=
  | DT_FLOAT | DT_DOUBLE | DT_INT32 | DT_UINT8 | DT_INT16 | DT_INT8
  | DT_STRING | DT_INT64 | DT_BOOL | DT_RESOURCE | DT_VARIANT.

(** Modelled from the spec: the type names accepted in an argument
    specification such as ["filenames: string"]. *)
Definition DataTypeFromString (s : string) : option DataType :=
  if String.eqb s "float" then Some DT_FLOAT
  else if String.eqb s "double" then Some DT_DOUBLE
  else if String.eqb s "int32" then Some DT_INT32
  else if String.eqb s "uint8" then Some DT_UINT8
  else if String.eqb s "int16" then Some DT_INT16
  else if String.eqb s "int8" then Some DT_INT8
  else if String.eqb s "string" then Some DT_STRING
  else if String.eqb s "int64" then Some DT_INT64
  else if String.eqb s "bool" then Some DT_BOOL
  else if String.eqb s "resource" then Some DT_RESOURCE
  else if String.eqb s "variant" then Some DT_VARIANT
  else None.

(** Modelled from the spec: the framework's status value; only the codes
    that registration and shape inference can produce are listed. *)
Inductive Code : Type := OK | INVALID_ARGUMENT | ALREADY_EXISTS.

Record Status : Type := mkStatus { code : Code; error_message : string }.

(** [Status::OK()] *)
Definition Status_OK : Status := mkStatus OK "".

(** *** Shape inference contexts *)

Module shape_inference.

(** Modelled from the spec: a dimension is a value, with [-1] standing for
    "unknown" ([InferenceContext::kUnknownDim]). *)
Definition kUnknownDim : Z := (-1)%Z.

(** Modelled from the spec: a dimension object of the arena. *)
Record Dimension : Type := mkDimension { value_ : Z }.

(** Handles are references into the arena of the context that made them:
    the position of the object in [all_dims_] / [all_shapes_]. *)
Definition DimensionHandle : Type := nat.
Definition ShapeHandle : Type := nat.

(** Modelled from the spec: a shape of known rank is the sequence of its
    dimension handles; [rank_] is its length. *)
Record Shape : Type := mkShape { rank_ : Z; dims_ : list DimensionHandle }.

(** Modelled from the spec: the state of one shape-inference context: the
    shapes and constant values of the node's inputs, one output slot per
    declared output (empty until [set_output] fills it), and the arena of
    the dimensions and shapes made so far. *)
Record InferenceContext : Type := mkInferenceContext {
  inputs_ : list ShapeHandle;
  input_tensors_ : list (option (list string));
  outputs_ : list (option ShapeHandle);
  all_dims_ : list Dimension;
  all_shapes_ : list Shape
}.

(** Computations over a context.  [None] is abnormal termination: an
    index outside [outputs_] in [set_output]. *)
Definition Infer (A : Type) : Type :=
  InferenceContext -> option (A * InferenceContext).

Definition ret {A} (a : A) : Infer A := fun c => Some (a, c).

Definition bind {A B} (m : Infer A) (k : A -> Infer B) : Infer B :=
  fun c => match m c with
           | Some (a, c') => k a c'
           | None => None
           end.

Declare Scope infer_scope.
Delimit Scope infer_scope with infer.
Bind Scope infer_scope with Infer.

Notation "x <- m ;; k" := (bind m (fun x => k))
  (at level 100, m at next level, right associativity) : infer_scope.
Notation "m ;; k" := (bind m (fun _ => k))
  (at level 100, right associativity) : infer_scope.

(** Modelled from the spec: [c->MakeDim(v)] allocates a dimension in the
    context and returns its handle. *)
Definition MakeDim (v : Z) : Infer DimensionHandle := fun c =>
  Some (length (all_dims_ c),
        mkInferenceContext (inputs_ c) (input_tensors_ c) (outputs_ c)
          (all_dims_ c ++ [mkDimension v]) (all_shapes_ c)).

(** Modelled from the spec: [c->UnknownDim()] ("unknown dimensions"). *)
Definition UnknownDim : Infer DimensionHandle := MakeDim kUnknownDim.

(** Modelled from the spec: [c->MakeShape(dims)] allocates a shape whose
    rank is the number of handles given. *)
Definition MakeShape (dims : list DimensionHandle) : Infer ShapeHandle :=
  fun c =>
  Some (length (all_shapes_ c),
        mkInferenceContext (inputs_ c) (input_tensors_ c) (outputs_ c)
          (all_dims_ c) (all_shapes_ c ++ [mkShape (Z.of_nat (length dims)) dims])).

(** Modelled from the spec: [c->set_output(idx, shape)] stores the handle
    in output slot [idx]; there is no slot to store into when [idx] is out
    of range. *)
Definition set_output (idx : nat) (shape : ShapeHandle) : Infer unit :=
  fun c =>
  if decide (idx < length (outputs_ c)) then
    Some (tt, mkInferenceContext (inputs_ c) (input_tensors_ c)
                (<[idx := Some shape]> (outputs_ c))
                (all_dims_ c) (all_shapes_ c))
  else None.

(** Modelled from the spec: the accessors of a context.  A handle that
    is not in the arena of the context denotes nothing. *)
Definition num_inputs (c : InferenceContext) : nat := length (inputs_ c).
Definition num_outputs (c : InferenceContext) : nat := length (outputs_ c).

Definition output (c : InferenceContext) (idx : nat) : option ShapeHandle :=
  mjoin (outputs_ c !! idx).

Definition Rank (c : InferenceContext) (s : ShapeHandle) : option Z :=
  rank_ <$> all_shapes_ c !! s.

Definition Value (c : InferenceContext) (d : DimensionHandle) : option Z :=
  value_ <$> all_dims_ c !! d.

(** The dimension values of a shape, read through its handles. *)
Definition DimValues (c : InferenceContext) (s : ShapeHandle) : option (list Z) :=
  sh ← all_shapes_ c !! s; mapM (Value c) (dims_ sh).

Definition output_rank (c : InferenceContext) (idx : nat) : option Z :=
  s ← output c idx; Rank c s.

Definition output_dims (c : InferenceContext) (idx : nat) : option (list Z) :=
  s ← output c idx; DimValues c s.

End shape_inference.

Import shape_inference.

(** *** Op definitions, builders and the registry *)

(** Modelled from the spec: an op's "input/output signature": its name,
    the name and element type of each input and output in order, and the
    stateful flag. *)
Record ArgDef : Type := mkArgDef { arg_name : string; arg_type : DataType }.

Record OpDef : Type := mkOpDef {
  op_name : string;
  input_arg : list ArgDef;
  output_arg : list ArgDef;
  is_stateful : bool
}.

(** Modelled from the spec: a shape function runs on a context and
    returns a status; a catalog entry pairs the op definition with its
    shape function, if one was set. *)
Definition OpShapeInferenceFn : Type := Infer Status.

Record OpRegistrationData : Type := mkOpRegistrationData {
  op_def : OpDef;
  shape_inference_fn : option OpShapeInferenceFn
}.

(** Modelled from the spec: the builder behind [REGISTER_OP(name)].  Each
    chained call records its argument; nothing is parsed before
    [Finalize]. *)
Record OpDefBuilder : Type := mkOpDefBuilder {
  b_name : string;
  b_inputs : list string;
  b_outputs : list string;
  b_stateful : bool;
  b_shape_fn : option OpShapeInferenceFn;
  b_errors : list string
}.

(** Modelled from the spec: the builder calls that the source chains. *)
Definition REGISTER_OP (name : string) : OpDefBuilder :=
  mkOpDefBuilder name [] [] false None [].

Definition Input (spec : string) (b : OpDefBuilder) : OpDefBuilder :=
  mkOpDefBuilder (b_name b) (b_inputs b ++ [spec]) (b_outputs b)
    (b_stateful b) (b_shape_fn b) (b_errors b).

Definition Output (spec : string) (b : OpDefBuilder) : OpDefBuilder :=
  mkOpDefBuilder (b_name b) (b_inputs b) (b_outputs b ++ [spec])
    (b_stateful b) (b_shape_fn b) (b_errors b).

Definition SetIsStateful (b : OpDefBuilder) : OpDefBuilder :=
  mkOpDefBuilder (b_name b) (b_inputs b) (b_outputs b)
    true (b_shape_fn b) (b_errors b).

Definition SetShapeFn (fn : OpShapeInferenceFn) (b : OpDefBuilder) : OpDefBuilder :=
  match b_shape_fn b with
  | Some _ =>
      mkOpDefBuilder (b_name b) (b_inputs b) (b_outputs b) (b_stateful b)
        (b_shape_fn b) (b_errors b ++ ["SetShapeFn called twice for Op " +:+ b_name b])
  | None =>
      mkOpDefBuilder (b_name b) (b_inputs b) (b_outputs b) (b_stateful b)
        (Some fn) (b_errors b)
  end.

(** Chained calls read left to right, as in the source. *)
Notation "b '.>' f" := (f b) (at level 45, left associativity, only parsing).

(** Modelled from the spec: an argument specification is
    ["<name>: <type>"], the name made of lower-case letters, digits and
    underscores. *)
Definition is_name_char (a : ascii) : bool :=
  let n := Ascii.N_of_ascii a in
  ((97 <=? n) && (n <=? 122) || (48 <=? n) && (n <=? 57) || (n =? 95))%N.

Fixpoint scan_name (s : string) : string * string :=
  match s with
  | String a rest =>
      if is_name_char a
      then let '(n, r) := scan_name rest in (String a n, r)
      else (EmptyString, s)
  | EmptyString => (EmptyString, EmptyString)
  end.

Fixpoint skip_spaces (s : string) : string :=
  match s with
  | String " " rest => skip_spaces rest
  | _ => s
  end.

Definition FinalizeInputOrOutput (spec : string) : option ArgDef :=
  let '(name, r) := scan_name spec in
  if String.eqb name "" then None
  else match skip_spaces r with
       | String ":" r' => mkArgDef name <$> DataTypeFromString (skip_spaces r')
       | _ => None
       end.

(** Modelled from the spec: [Finalize] turns the recorded specifications
    into the op definition, or reports the first thing that is wrong. *)
Definition Finalize (b : OpDefBuilder) : Status * option OpRegistrationData :=
  match b_errors b with
  | e :: _ => (mkStatus INVALID_ARGUMENT e, None)
  | [] =>
      match mapM FinalizeInputOrOutput (b_inputs b),
            mapM FinalizeInputOrOutput (b_outputs b) with
      | Some ins, Some outs =>
          (Status_OK,
           Some (mkOpRegistrationData
                   (mkOpDef (b_name b) ins outs (b_stateful b))
                   (b_shape_fn b)))
      | _, _ =>
          (mkStatus INVALID_ARGUMENT ("Malformed signature for Op " +:+ b_name b), None)
      end
  end.

(** Modelled from the spec: the operator catalog, keyed by op name.  A
    name can be registered once. *)
Definition Register (b : OpDefBuilder) (registry : gmap string OpRegistrationData)
  : Status * gmap string OpRegistrationData :=
  match Finalize b with
  | (_, Some data) =>
      let name := op_name (op_def data) in
      match registry !! name with
      | Some _ => (mkStatus ALREADY_EXISTS ("Op with name " +:+ name), registry)
      | None => (Status_OK, <[name := data]> registry)
      end
  | (s, None) => (s, registry)
  end.

(** ** [dataset_ops.cc] *)

Local Open Scope infer_scope.

(** The lambda passed to [SetShapeFn] for ["MNISTImageDataset"]. *)
Definition MNISTImageDataset_ShapeFn : OpShapeInferenceFn :=
  d0 <- UnknownDim ;;
  d1 <- UnknownDim ;;
  s <- MakeShape [d0; d1] ;;
  set_output 0 s ;;
  ret Status_OK.

(** The lambda passed to [SetShapeFn] for ["MNISTLabelDataset"]. *)
Definition MNISTLabelDataset_ShapeFn : OpShapeInferenceFn :=
  s <- MakeShape [] ;;
  set_output 0 s ;;
  ret Status_OK.

Definition MNISTImageDataset : OpDefBuilder :=
  REGISTER_OP "MNISTImageDataset"
    .> Input "filenames: string"
    .> Input "compression_type: string"
    .> Output "handle: variant"
    .> SetIsStateful
    .> SetShapeFn MNISTImageDataset_ShapeFn.

Definition MNISTLabelDataset : OpDefBuilder :=
  REGISTER_OP "MNISTLabelDataset"
    .> Input "filenames: string"
    .> Input "compression_type: string"
    .> Output "handle: variant"
    .> SetIsStateful
    .> SetShapeFn MNISTLabelDataset_ShapeFn.

(** The static registrations of the translation unit, in source order. *)
Definition registrations : list OpDefBuilder :=
  [MNISTImageDataset; MNISTLabelDataset].

(** Loading the translation unit runs its registrations against the
    catalog, collecting the status of each. *)
Fixpoint RegisterAll (bs : list OpDefBuilder) (registry : gmap string OpRegistrationData)
  : list Status * gmap string OpRegistrationData :=
  match bs with
  | [] => ([], registry)
  | b :: rest =>
      let '(s, registry') := Register b registry in
      let '(ss, registry'') := RegisterAll rest registry' in
      (s :: ss, registry'')
  end.

Definition load (registry : gmap string OpRegistrationData)
  : list Status * gmap string OpRegistrationData :=
  RegisterAll registrations registry.

(** The argument lists that ["filenames: string"],
    ["compression_type: string"] and ["handle: variant"] stand for. *)
Definition dataset_inputs : list ArgDef :=
  [mkArgDef "filenames" DT_STRING; mkArgDef "compression_type" DT_STRING].
Definition dataset_outputs : list ArgDef := [mkArgDef "handle" DT_VARIANT].

(** The catalog entry for [name] once the translation unit has been
    loaded into an empty catalog. *)
Definition registered (name : string) : option OpRegistrationData :=
  snd (load ∅) !! name.

(** What a run of a shape function leaves to be observed: the status it
    returned and the rank and dimension values of output 0. *)
Definition inferred_output (fn : OpShapeInferenceFn) (c : InferenceContext)
  : option (Status * option Z * option (list Z)) :=
  match fn c with
  | Some (st, c') => Some (st, output_rank c' 0, output_dims c' 0)
  | None => None
  end.

(** A context is one for [op] when it has a slot per declared input and
    output, which is how the framework builds the context it hands to the
    op's shape function. *)
Definition context_for (op : OpDef) (c : InferenceContext) : Prop :=
  num_inputs c = length (input_arg op) /\ num_outputs c = length (output_arg op).

(** A small context for either op: two scalar string inputs whose values
    are not known, one empty output slot. *)
Definition sample_context : InferenceContext :=
  mkInferenceContext [0; 1] [None; None] [None] [] [mkShape 0 []; mkShape 0 []].

(** A second one: the filenames input is a known vector of two names, and
    the arena already holds its dimension. *)
Definition sample_context' : InferenceContext :=
  mkInferenceContext [0; 1] [Some ["a.gz"; "b.gz"]; Some ["GZIP"]] [None]
    [mkDimension 2] [mkShape 1 [0]; mkShape 0 []].

(** A context with a second output slot that is already filled. *)
Definition sample_context_two_slots : InferenceContext :=
  mkInferenceContext [0; 1] [None; None] [None; Some 1] [mkDimension 7]
    [mkShape 0 []; mkShape 1 [0]].

End tensorflow.

(** ** The record decoder behind the ops

    The kernels that read MNIST files are not in [dataset_ops.cc].  The
    decoder below is the one the specification describes: a [FileDecoder]
    that opens a byte source and validates the header, and a
    [RecordIterator] that pulls fixed-size records from it. *)

Module mnist.

Abbreviation byte := Byte.byte.

(** Modelled from the spec: the compression designator of [open] ("one
    of: none, gzip-equivalent, zlib-equivalent"); the decoder kernels are
    not in the repository. *)
Inductive CompressionType : Type := NoCompression | GZIP | ZLIB.

#[global] Instance CompressionType_eq_dec : EqDecision CompressionType.
Proof. solve_decision. Defined.

(** Modelled from the spec: the error taxonomy of section 7. *)
Inductive Error : Type :=
  | FileNotFound | DecompressionError | MalformedHeader | TruncatedRecord.

(** Modelled from the spec: a file as the decoder sees it through its
    compression envelope: the framing it is actually wrapped in, and the
    decompressed bytes inside. *)
Record StoredFile : Type := mkStoredFile {
  framing : CompressionType;
  content : list byte
}.

(** Modelled from the spec: the byte source handle owned by a
    [FileDecoder], with its cursor offset into the decompressed bytes. *)
Record FileDecoder : Type := mkFileDecoder {
  source : list byte;
  cursor : nat
}.

(** Modelled from the spec: [open(path, compressionType)] fails with
    [FileNotFound] if the path is unreadable and with
    [DecompressionError] if the declared compression does not match the
    actual framing. *)
Definition open (fs : gmap string StoredFile) (path : string)
    (compressionType : CompressionType) : Error + FileDecoder :=
  match fs !! path with
  | None => inl FileNotFound
  | Some f =>
      if decide (framing f = compressionType)
      then inr (mkFileDecoder (content f) 0)
      else inl DecompressionError
  end.

(** The bytes from the cursor to the end of the stream. *)
Definition remaining (d : FileDecoder) : list byte := drop (cursor d) (source d).

(** Modelled from the spec: a read of exactly [n] bytes at the cursor; it
    fails when fewer than [n] bytes remain, and advances the cursor
    otherwise. *)
Definition read (n : nat) (d : FileDecoder) : option (list byte * FileDecoder) :=
  if decide (n <= length (remaining d))
  then Some (take n (remaining d), mkFileDecoder (source d) (cursor d + n))
  else None.

(** Modelled from the spec: the value of a big-endian byte sequence
    ("4-byte big-endian integer"). *)
Definition be32 (bs : list byte) : N :=
  fold_left (fun acc b => (acc * 256 + Byte.to_N b)%N) bs 0%N.

(** Modelled from the spec: the two magic numbers of section 6. *)
Definition kImageMagic : N := 2051.  (* 0x00000803 *)
Definition kLabelMagic : N := 2049.  (* 0x00000801 *)

(** Modelled from the spec: [DatasetHeader].  The magic number selects
    the constructor; image headers carry the geometry. *)
Inductive DatasetHeader : Type :=
  | ImageHeader (recordCount rows cols : N)
  | LabelHeader (recordCount : N).

Definition magic (h : DatasetHeader) : N :=
  match h with
  | ImageHeader _ _ _ => kImageMagic
  | LabelHeader _ => kLabelMagic
  end.

Definition recordCount (h : DatasetHeader) : N :=
  match h with
  | ImageHeader n _ _ => n
  | LabelHeader n => n
  end.

(** One record's worth of raw bytes: rows×cols for images, 1 for labels. *)
Definition record_size (h : DatasetHeader) : nat :=
  match h with
  | ImageHeader _ r c => N.to_nat (r * c)
  | LabelHeader _ => 1
  end.

(** Modelled from the spec: the header invariant of section 3: for
    images, row count × column count > 0. *)
Definition valid_header (h : DatasetHeader) : bool :=
  match h with
  | ImageHeader _ r c => (0 <? r * c)%N
  | LabelHeader _ => true
  end.

(** Modelled from the spec: reads one 4-byte big-endian header field. *)
Definition read_u32 (d : FileDecoder) : option (N * FileDecoder) :=
  match read 4 d with
  | Some (bs, d') => Some (be32 bs, d')
  | None => None
  end.

(** Modelled from the spec: [readHeader()] reads and validates the
    fixed-size header and leaves the cursor at record 0.  It fails with
    [MalformedHeader] if the magic number is unrecognized or the declared
    geometry is zero.  The specification names no other error for header
    reading, so a header that is cut short is malformed as well. *)
Definition readHeader (d : FileDecoder) : Error + (DatasetHeader * FileDecoder) :=
  match read_u32 d with
  | None => inl MalformedHeader
  | Some (m, d1) =>
      if (m =? kImageMagic)%N then
        match read_u32 d1 with
        | None => inl MalformedHeader
        | Some (n, d2) =>
            match read_u32 d2 with
            | None => inl MalformedHeader
            | Some (r, d3) =>
                match read_u32 d3 with
                | None => inl MalformedHeader
                | Some (c, d4) =>
                    let h := ImageHeader n r c in
                    if valid_header h then inr (h, d4) else inl MalformedHeader
                end
            end
        end
      else if (m =? kLabelMagic)%N then
        match read_u32 d1 with
        | None => inl MalformedHeader
        | Some (n, d2) => inr (LabelHeader n, d2)
        end
      else inl MalformedHeader
  end.

(** Modelled from the spec: [Record], a variant over image and label
    records. *)
Inductive Record_ : Type :=
  | ImageRecord (pixels : list byte)
  | LabelRecord (label : byte).

(** The record made from one record's worth of raw bytes. *)
Definition decode_record (h : DatasetHeader) (bytes : list byte) : option Record_ :=
  match h with
  | ImageHeader _ _ _ => Some (ImageRecord bytes)
  | LabelHeader _ =>
      match bytes with
      | [b] => Some (LabelRecord b)
      | _ => None
      end
  end.

(** The raw bytes a record was made from. *)
Definition record_bytes (r : Record_) : list byte :=
  match r with
  | ImageRecord pixels => pixels
  | LabelRecord label => [label]
  end.

(** A record of the kind and size that the header announces: never a
    short or partial one. *)
Definition full_record (h : DatasetHeader) (r : Record_) : Prop :=
  match h, r with
  | ImageHeader _ rows cols, ImageRecord pixels => length pixels = N.to_nat (rows * cols)
  | LabelHeader _, LabelRecord _ => True
  | _, _ => False
  end.

(** Modelled from the spec: the states of section 4.2 that an iterator
    can be in.  [Unopened] and [HeaderPending] are the stages before an
    iterator exists: no decoder yet, and a [FileDecoder] whose header has
    not been read. *)
Inductive IterState : Type :=
  | Ready (h : DatasetHeader) (index : N) (d : FileDecoder)
  | Exhausted (h : DatasetHeader) (d : FileDecoder)
  | Failed (e : Error).

(** Modelled from the spec: the handle a consumer drives.  It remembers
    the path and compression designator it was made from, which is what
    [restart()] opens again. *)
Record RecordIterator : Type := mkRecordIterator {
  it_path : string;
  it_compression : CompressionType;
  it_state : IterState
}.

(** [Exhausted] is the state with [index = recordCount]. *)
Definition position (h : DatasetHeader) (index : N) (d : FileDecoder) : IterState :=
  if (index =? recordCount h)%N then Exhausted h d else Ready h index d.

(** Modelled from the spec: "FileDecoder's open+readHeader path": any
    error ends in [Failed], success in [Ready] with index 0. *)
Definition open_and_readHeader (fs : gmap string StoredFile) (path : string)
    (compressionType : CompressionType) : IterState :=
  match open fs path compressionType with
  | inl e => Failed e
  | inr d =>
      match readHeader d with
      | inl e => Failed e
      | inr (h, d') => position h 0 d'
      end
  end.

(** Modelled from the spec: the factory entry point, "construct a record
    source from (filenames, compressionType)", for one file. *)
Definition start (fs : gmap string StoredFile) (path : string)
    (compressionType : CompressionType) : RecordIterator :=
  mkRecordIterator path compressionType (open_and_readHeader fs path compressionType).

(** Modelled from the spec: [restart()] "repositions to the first record
    by re-invoking FileDecoder's open+readHeader path". *)
Definition restart (fs : gmap string StoredFile) (it : RecordIterator) : RecordIterator :=
  start fs (it_path it) (it_compression it).

(** Modelled from the spec: what a [next()] call gives back: a record,
    the end-of-sequence signal, or an error value. *)
Inductive Outcome : Type :=
  | Produced (r : Record_)
  | EndOfSequence
  | Err (e : Error).

Definition with_state (it : RecordIterator) (s : IterState) : RecordIterator :=
  mkRecordIterator (it_path it) (it_compression it) s.

(** Modelled from the spec: [next()] returns the next record or signals
    end-of-sequence once [recordCount] records have been produced; it
    reads exactly one record's worth of bytes and fails with
    [TruncatedRecord] if fewer remain.  A read error is terminal: a
    failed iterator reads nothing more and keeps reporting its error. *)
Definition next (it : RecordIterator) : Outcome * RecordIterator :=
  match it_state it with
  | Ready h index d =>
      match read (record_size h) d with
      | Some (bytes, d') =>
          match decode_record h bytes with
          | Some r => (Produced r, with_state it (position h (index + 1) d'))
          | None => (Err TruncatedRecord, with_state it (Failed TruncatedRecord))
          end
      | None => (Err TruncatedRecord, with_state it (Failed TruncatedRecord))
      end
  | Exhausted _ _ => (EndOfSequence, it)
  | Failed e => (Err e, it)
  end.

(** What a consumer can do with the handle. *)
Inductive Call : Type := CallNext | CallRestart.

(** A consumer's calls in order, with the outcome of every [next()]. *)
Fixpoint run (fs : gmap string StoredFile) (calls : list Call) (it : RecordIterator)
  : list Outcome * RecordIterator :=
  match calls with
  | [] => ([], it)
  | CallNext :: rest =>
      let '(o, it') := next it in
      let '(os, it'') := run fs rest it' in
      (o :: os, it'')
  | CallRestart :: rest => run fs rest (restart fs it)
  end.

(** Iteration to exhaustion: [next()] until it stops producing records;
    the records, and the outcome that ended the iteration.  [None] when
    [fuel] calls were not enough. *)
Fixpoint drain (fuel : nat) (it : RecordIterator) : option (list Record_ * Outcome) :=
  match fuel with
  | 0 => None
  | S fuel' =>
      match next it with
      | (Produced r, it') =>
          match drain fuel' it' with
          | Some (rs, o) => Some (r :: rs, o)
          | None => None
          end
      | (o, _) => Some ([], o)
      end
  end.

(** *** The file format (section 6) *)

Definition byte_of_N (n : N) : byte :=
  match Byte.of_N (n mod 256) with
  | Some b => b
  | None => Byte.x00
  end.

(** Modelled from the spec: the four bytes of a big-endian 32-bit
    field. *)
Definition be32_bytes (n : N) : list byte :=
  [byte_of_N (n / 16777216); byte_of_N (n / 65536); byte_of_N (n / 256); byte_of_N n].

(** Modelled from the spec: the header bytes: magic, record count and,
    for images, row count and column count. *)
Definition header_bytes (h : DatasetHeader) : list byte :=
  match h with
  | ImageHeader n r c =>
      be32_bytes (magic h) ++ be32_bytes n ++ be32_bytes r ++ be32_bytes c
  | LabelHeader n => be32_bytes (magic h) ++ be32_bytes n
  end.

(** Modelled from the spec: a file is its header followed by the record
    data. *)
Definition dataset_file (h : DatasetHeader) (data : list byte) : list byte :=
  header_bytes h ++ data.

Definition u32 (n : N) : Prop := (n < 4294967296)%N.

Definition header_fields_u32 (h : DatasetHeader) : Prop :=
  match h with
  | ImageHeader n r c => u32 n /\ u32 r /\ u32 c
  | LabelHeader n => u32 n
  end.

(** Modelled from the spec: a well-formed file: 32-bit header fields that
    satisfy the header invariant, followed by exactly record count ×
    record size bytes of data. *)
Definition well_formed (h : DatasetHeader) (data : list byte) : Prop :=
  header_fields_u32 h /\ valid_header h = true /\
  length data = N.to_nat (recordCount h) * record_size h.

(** A file "truncated by one byte before its last record boundary": its
    last byte is missing. *)
Definition truncate_one (bs : list byte) : list byte := take (length bs - 1) bs.

(** The magic numbers as they stand in a file. *)
Definition image_magic_bytes : list byte := [Byte.x00; Byte.x00; Byte.x08; Byte.x03].
Definition label_magic_bytes : list byte := [Byte.x00; Byte.x00; Byte.x08; Byte.x01].

(** The raw bytes of each record, in file order. *)
Fixpoint chunks (k m : nat) (l : list byte) : list (list byte) :=
  match m with
  | 0 => []
  | S m' => take k l :: chunks k m' (drop k l)
  end.

(** *** Sample files *)

(** A label file with three records, 5, 0 and 9. *)
Definition sample_label_file : list byte :=
  [Byte.x00; Byte.x00; Byte.x08; Byte.x01; Byte.x00; Byte.x00; Byte.x00; Byte.x03;
   Byte.x05; Byte.x00; Byte.x09].

(** An image file with one 2×2 record. *)
Definition sample_pixels : list byte := [Byte.x10; Byte.x20; Byte.x30; Byte.x40].
Definition sample_image_file : list byte :=
  dataset_file (ImageHeader 1 2 2) sample_pixels.

(** The image file with its first four bytes changed. *)
Definition sample_corrupt_file : list byte :=
  [Byte.x00; Byte.x00; Byte.x08; Byte.x02] ++ drop 4 sample_image_file.

Definition sample_fs : gmap string StoredFile :=
  <["images.gz" := mkStoredFile GZIP sample_image_file]>
    (<["labels" := mkStoredFile NoCompression sample_label_file]>
       (<["cut.gz" := mkStoredFile GZIP (truncate_one sample_image_file)]>
          (<["corrupt" := mkStoredFile NoCompression sample_corrupt_file]> ∅))).

End mnist.

(** * Properties of the registrations *)

Section Registration.

Import tensorflow tensorflow.shape_inference.

Lemma Finalize_image :
  Finalize MNISTImageDataset =
  (Status_OK,
   Some (mkOpRegistrationData
           (mkOpDef "MNISTImageDataset" dataset_inputs dataset_outputs true)
           (Some MNISTImageDataset_ShapeFn))).
Proof. reflexivity. Qed.

Lemma Finalize_label :
  Finalize MNISTLabelDataset =
  (Status_OK,
   Some (mkOpRegistrationData
           (mkOpDef "MNISTLabelDataset" dataset_inputs dataset_outputs true)
           (Some MNISTLabelDataset_ShapeFn))).
Proof. reflexivity. Qed.

(** Loading the file into a catalog that has neither name adds the two
    entries and reports success twice. *)
Lemma load_fresh (r : gmap string OpRegistrationData) :
  r !! "MNISTImageDataset" = None ->
  r !! "MNISTLabelDataset" = None ->
  load r =
  ([Status_OK; Status_OK],
   <["MNISTLabelDataset" :=
       mkOpRegistrationData
         (mkOpDef "MNISTLabelDataset" dataset_inputs dataset_outputs true)
         (Some MNISTLabelDataset_ShapeFn)]>
     (<["MNISTImageDataset" :=
          mkOpRegistrationData
            (mkOpDef "MNISTImageDataset" dataset_inputs dataset_outputs true)
            (Some MNISTImageDataset_ShapeFn)]> r)).
Proof.
  intros Himg Hlbl. unfold load, registrations.
  cbn [RegisterAll]. unfold Register.
  rewrite Finalize_image. cbn [op_def op_name]. rewrite Himg.
  rewrite Finalize_label. cbn [op_def op_name].
  rewrite lookup_insert_ne by discriminate. rewrite Hlbl. reflexivity.
Qed.

(** The catalog entries by name. *)
Lemma registered_cases (name : string) (data : OpRegistrationData) :
  registered name = Some data ->
  (name = "MNISTImageDataset" /\
   data = mkOpRegistrationData
            (mkOpDef "MNISTImageDataset" dataset_inputs dataset_outputs true)
            (Some MNISTImageDataset_ShapeFn)) \/
  (name = "MNISTLabelDataset" /\
   data = mkOpRegistrationData
            (mkOpDef "MNISTLabelDataset" dataset_inputs dataset_outputs true)
            (Some MNISTLabelDataset_ShapeFn)).
Proof.
  unfold registered. rewrite load_fresh by apply lookup_empty. cbn [snd].
  intros H.
  destruct (decide (name = "MNISTLabelDataset")) as [->|Hl].
  - rewrite lookup_insert_eq in H. right. split; congruence.
  - rewrite lookup_insert_ne in H by congruence.
    destruct (decide (name = "MNISTImageDataset")) as [->|Hi].
    + rewrite lookup_insert_eq in H. left. split; congruence.
    + rewrite lookup_insert_ne in H by congruence.
      rewrite lookup_empty in H. discriminate.
Qed.

Lemma registered_image :
  registered "MNISTImageDataset" =
  Some (mkOpRegistrationData
          (mkOpDef "MNISTImageDataset" dataset_inputs dataset_outputs true)
          (Some MNISTImageDataset_ShapeFn)).
Proof.
  unfold registered. rewrite load_fresh by apply lookup_empty. cbn [snd].
  rewrite lookup_insert_ne by discriminate. apply lookup_insert_eq.
Qed.

Lemma registered_label :
  registered "MNISTLabelDataset" =
  Some (mkOpRegistrationData
          (mkOpDef "MNISTLabelDataset" dataset_inputs dataset_outputs true)
          (Some MNISTLabelDataset_ShapeFn)).
Proof.
  unfold registered. rewrite load_fresh by apply lookup_empty. cbn [snd].
  apply lookup_insert_eq.
Qed.

(** *** Running the two shape functions *)

(** The image shape function on a context with an output slot 0: two
    fresh unknown dimensions, a fresh shape over them, stored in slot 0. *)
Lemma image_ShapeFn_run (c : InferenceContext) :
  0 < num_outputs c ->
  MNISTImageDataset_ShapeFn c =
  Some (Status_OK,
        mkInferenceContext (inputs_ c) (input_tensors_ c)
          (<[0 := Some (length (all_shapes_ c))]> (outputs_ c))
          ((all_dims_ c ++ [mkDimension kUnknownDim]) ++ [mkDimension kUnknownDim])
          (all_shapes_ c ++
             [mkShape 2 [length (all_dims_ c);
                         length (all_dims_ c ++ [mkDimension kUnknownDim])]])).
Proof.
  intros Hout. unfold MNISTImageDataset_ShapeFn, bind, UnknownDim, MakeDim,
    MakeShape, set_output, ret. cbn.
  destruct (decide (0 < length (outputs_ c))) as [_|Hn]; [reflexivity|].
  exfalso. apply Hn. exact Hout.
Qed.

Lemma label_ShapeFn_run (c : InferenceContext) :
  0 < num_outputs c ->
  MNISTLabelDataset_ShapeFn c =
  Some (Status_OK,
        mkInferenceContext (inputs_ c) (input_tensors_ c)
          (<[0 := Some (length (all_shapes_ c))]> (outputs_ c))
          (all_dims_ c)
          (all_shapes_ c ++ [mkShape 0 []])).
Proof.
  intros Hout. unfold MNISTLabelDataset_ShapeFn, bind, MakeShape, set_output, ret.
  cbn.
  destruct (decide (0 < length (outputs_ c))) as [_|Hn]; [reflexivity|].
  exfalso. apply Hn. exact Hout.
Qed.

(** Without an output slot the store in [set_output] has nowhere to go. *)
Lemma image_ShapeFn_no_slot (c : InferenceContext) :
  num_outputs c = 0 -> MNISTImageDataset_ShapeFn c = None.
Proof.
  intros Hout. unfold MNISTImageDataset_ShapeFn, bind, UnknownDim, MakeDim,
    MakeShape, set_output, ret. cbn.
  unfold num_outputs in Hout. rewrite Hout.
  destruct (decide (0 < 0)); [lia | reflexivity].
Qed.

Lemma image_inferred (c : InferenceContext) :
  0 < num_outputs c ->
  inferred_output MNISTImageDataset_ShapeFn c =
  Some (Status_OK, Some 2%Z, Some [kUnknownDim; kUnknownDim]).
Proof.
  intros Hout. unfold inferred_output. rewrite image_ShapeFn_run by done.
  unfold output_rank, output_dims, output, DimValues, Rank, Value. cbn.
  rewrite list_lookup_insert_eq by done. cbn.
  rewrite list_lookup_middle by done. cbn.
  rewrite (list_lookup_middle _ [] _ (length (all_dims_ c ++ _))) by done.
  rewrite lookup_app_l by (rewrite length_app; cbn; lia).
  rewrite list_lookup_middle by done. reflexivity.
Qed.

Lemma label_inferred (c : InferenceContext) :
  0 < num_outputs c ->
  inferred_output MNISTLabelDataset_ShapeFn c =
  Some (Status_OK, Some 0%Z, Some []).
Proof.
  intros Hout. unfold inferred_output. rewrite label_ShapeFn_run by done.
  unfold output_rank, output_dims, output, DimValues, Rank. cbn.
  rewrite list_lookup_insert_eq by done. cbn.
  rewrite list_lookup_middle by done. reflexivity.
Qed.

Lemma inferred_output_run (fn : OpShapeInferenceFn) (c : InferenceContext)
    (st : Status) (r : option Z) (ds : option (list Z)) :
  inferred_output fn c = Some (st, r, ds) ->
  exists c', fn c = Some (st, c') /\ output_rank c' 0 = r /\ output_dims c' 0 = ds.
Proof.
  unfold inferred_output. destruct (fn c) as [[st' c']|]; [|discriminate].
  intros H. injection H as -> <- <-. eauto.
Qed.

(** C1: the shape function registered for "MNISTImageDataset" gives the
    op's single output rank 2 with both dimensions unknown, and the one
    registered for "MNISTLabelDataset" gives its single output rank 0,
    on every inference context of the op. *)
Theorem shape_fns_declare_output_shapes
    (img lbl : OpRegistrationData) (f g : OpShapeInferenceFn)
    (c1 c2 : InferenceContext) :
  registered "MNISTImageDataset" = Some img ->
  shape_inference_fn img = Some f ->
  context_for (op_def img) c1 ->
  registered "MNISTLabelDataset" = Some lbl ->
  shape_inference_fn lbl = Some g ->
  context_for (op_def lbl) c2 ->
  (length (output_arg (op_def img)) = 1 /\
   exists c1', f c1 = Some (Status_OK, c1') /\
     output_rank c1' 0 = Some 2%Z /\
     output_dims c1' 0 = Some [kUnknownDim; kUnknownDim]) /\
  (length (output_arg (op_def lbl)) = 1 /\
   exists c2', g c2 = Some (Status_OK, c2') /\
     output_rank c2' 0 = Some 0%Z /\
     output_dims c2' 0 = Some []).
Proof.
  rewrite registered_image, registered_label.
  intros [= <-] [= <-] [_ Ho1] [= <-] [= <-] [_ Ho2].
  cbn in Ho1, Ho2. split; (split; [reflexivity|]).
  - apply inferred_output_run, image_inferred. lia.
  - apply inferred_output_run, label_inferred. lia.
Qed.

Lemma shape_fns_declare_output_shapes_witness :
  (exists c1', MNISTImageDataset_ShapeFn sample_context = Some (Status_OK, c1') /\
     output_rank c1' 0 = Some 2%Z /\
     output_dims c1' 0 = Some [kUnknownDim; kUnknownDim]) /\
  (exists c2', MNISTLabelDataset_ShapeFn sample_context' = Some (Status_OK, c2') /\
     output_rank c2' 0 = Some 0%Z /\
     output_dims c2' 0 = Some []).
Proof.
  pose proof (shape_fns_declare_output_shapes
    (mkOpRegistrationData
       (mkOpDef "MNISTImageDataset" dataset_inputs dataset_outputs true)
       (Some MNISTImageDataset_ShapeFn))
    (mkOpRegistrationData
       (mkOpDef "MNISTLabelDataset" dataset_inputs dataset_outputs true)
       (Some MNISTLabelDataset_ShapeFn))
    MNISTImageDataset_ShapeFn MNISTLabelDataset_ShapeFn
    sample_context sample_context') as H.
  destruct H as [[_ H1] [_ H2]].
  - vm_compute; reflexivity.
  - reflexivity.
  - split; reflexivity.
  - vm_compute; reflexivity.
  - reflexivity.
  - split; reflexivity.
  - split; assumption.
Defined.

(** C2: loading the file registers exactly two ops, "MNISTImageDataset"
    and "MNISTLabelDataset", each with an input/output signature and a
    shape function; nothing else in the catalog changes. *)
Theorem load_registers_exactly_two_ops (r : gmap string OpRegistrationData) :
  r !! "MNISTImageDataset" = None ->
  r !! "MNISTLabelDataset" = None ->
  exists r',
    load r = ([Status_OK; Status_OK], r') /\
    dom r' = dom r ∪ ({["MNISTImageDataset"; "MNISTLabelDataset"]} : gset string) /\
    size r' = S (S (size r)) /\
    (forall name, name <> "MNISTImageDataset" -> name <> "MNISTLabelDataset" ->
       r' !! name = r !! name) /\
    (forall name, name = "MNISTImageDataset" \/ name = "MNISTLabelDataset" ->
       exists data, r' !! name = Some data /\
         op_name (op_def data) = name /\
         input_arg (op_def data) <> [] /\
         output_arg (op_def data) <> [] /\
         is_Some (shape_inference_fn data)).
Proof.
  intros Himg Hlbl. eexists. split; [apply load_fresh; assumption|].
  split; [|split; [|split]].
  - rewrite !dom_insert_L. apply set_eq. intros x.
    rewrite !elem_of_union, !elem_of_singleton. tauto.
  - rewrite map_size_insert_None.
    + rewrite map_size_insert_None by assumption. reflexivity.
    + rewrite lookup_insert_ne by discriminate. assumption.
  - intros name Hi Hl. rewrite !lookup_insert_ne by congruence. reflexivity.
  - intros name [->| ->].
    + rewrite lookup_insert_ne by discriminate. rewrite lookup_insert_eq.
      eexists. split; [reflexivity|]. cbn. repeat split; try discriminate. eauto.
    + rewrite lookup_insert_eq.
      eexists. split; [reflexivity|]. cbn. repeat split; try discriminate. eauto.
Qed.

Lemma load_registers_exactly_two_ops_witness :
  exists r',
    load ∅ = ([Status_OK; Status_OK], r') /\
    dom r' = ({["MNISTImageDataset"; "MNISTLabelDataset"]} : gset string) /\
    size r' = 2.
Proof.
  destruct (load_registers_exactly_two_ops ∅) as (r' & Hload & Hdom & Hsize & _).
  - reflexivity.
  - reflexivity.
  - exists r'. split; [exact Hload|]. split.
    + rewrite Hdom, dom_empty_L. apply (left_id_L ∅ (∪)).
    + rewrite Hsize, map_size_empty. reflexivity.
Defined.

(** C3: each of the two ops takes exactly two inputs, a string
    "filenames" followed by a string "compression_type", and has exactly
    one output, "handle" of type variant. *)
Theorem registered_ops_signature :
  (exists data, registered "MNISTImageDataset" = Some data /\
     input_arg (op_def data) =
       [mkArgDef "filenames" DT_STRING; mkArgDef "compression_type" DT_STRING] /\
     output_arg (op_def data) = [mkArgDef "handle" DT_VARIANT]) /\
  (exists data, registered "MNISTLabelDataset" = Some data /\
     input_arg (op_def data) =
       [mkArgDef "filenames" DT_STRING; mkArgDef "compression_type" DT_STRING] /\
     output_arg (op_def data) = [mkArgDef "handle" DT_VARIANT]).
Proof.
  split; eexists; (split; [first [apply registered_image | apply registered_label]|]);
    split; reflexivity.
Qed.

(** C4: both registered ops are marked stateful. *)
Theorem registered_ops_stateful :
  (exists data, registered "MNISTImageDataset" = Some data /\
     is_stateful (op_def data) = true) /\
  (exists data, registered "MNISTLabelDataset" = Some data /\
     is_stateful (op_def data) = true).
Proof.
  split; eexists; (split; [first [apply registered_image | apply registered_label]|]);
    reflexivity.
Qed.

(** C9: the shape function of either registered op returns
    [Status::OK()] on every inference context of the op. *)
Theorem shape_fns_return_OK
    (name : string) (data : OpRegistrationData) (fn : OpShapeInferenceFn)
    (c : InferenceContext) :
  registered name = Some data ->
  shape_inference_fn data = Some fn ->
  context_for (op_def data) c ->
  exists c', fn c = Some (Status_OK, c').
Proof.
  intros Hreg Hfn [_ Hout].
  destruct (registered_cases _ _ Hreg) as [[-> ->]|[-> ->]];
    cbn in Hfn, Hout; injection Hfn as <-.
  - eexists. apply image_ShapeFn_run. lia.
  - eexists. apply label_ShapeFn_run. lia.
Qed.

Lemma shape_fns_return_OK_witness :
  exists c', MNISTLabelDataset_ShapeFn sample_context = Some (Status_OK, c').
Proof.
  apply (shape_fns_return_OK "MNISTLabelDataset"
    (mkOpRegistrationData
       (mkOpDef "MNISTLabelDataset" dataset_inputs dataset_outputs true)
       (Some MNISTLabelDataset_ShapeFn))).
  - vm_compute; reflexivity.
  - reflexivity.
  - split; reflexivity.
Defined.

(** C10: on any two inference contexts of the op, whatever the shapes
    and values of its inputs, the shape function of a registered op
    returns the same status and sets the same output shape: rank 2 with
    two unknown dimensions for the image op, a scalar for the label op. *)
Theorem shape_fns_independent_of_context
    (name : string) (data : OpRegistrationData) (fn : OpShapeInferenceFn)
    (c1 c2 : InferenceContext) :
  registered name = Some data ->
  shape_inference_fn data = Some fn ->
  context_for (op_def data) c1 ->
  context_for (op_def data) c2 ->
  inferred_output fn c1 = inferred_output fn c2 /\
  inferred_output fn c1 =
    Some (if String.eqb name "MNISTImageDataset"
          then (Status_OK, Some 2%Z, Some [kUnknownDim; kUnknownDim])
          else (Status_OK, Some 0%Z, Some [])).
Proof.
  intros Hreg Hfn [_ Hout1] [_ Hout2].
  destruct (registered_cases _ _ Hreg) as [[-> ->]|[-> ->]];
    cbn in Hfn, Hout1, Hout2; injection Hfn as <-.
  - rewrite !image_inferred by lia. split; reflexivity.
  - rewrite !label_inferred by lia. split; reflexivity.
Qed.

Lemma shape_fns_independent_of_context_witness :
  inferred_output MNISTImageDataset_ShapeFn sample_context =
  inferred_output MNISTImageDataset_ShapeFn sample_context'.
Proof.
  apply (shape_fns_independent_of_context "MNISTImageDataset"
    (mkOpRegistrationData
       (mkOpDef "MNISTImageDataset" dataset_inputs dataset_outputs true)
       (Some MNISTImageDataset_ShapeFn))).
  - vm_compute; reflexivity.
  - reflexivity.
  - split; reflexivity.
  - split; reflexivity.
Defined.

End Registration.

(** * Properties of the record decoder *)

Section Decoder.

Import mnist.
Local Open Scope list_scope.

(** *** Big-endian fields *)

Lemma to_N_byte_of_N (n : N) : Byte.to_N (byte_of_N n) = (n mod 256)%N.
Proof.
  unfold byte_of_N. destruct (Byte.of_N (n mod 256)) as [b|] eqn:E.
  - apply Byte.to_of_N. exact E.
  - apply Byte.of_N_None_iff in E.
    pose proof (N.mod_lt n 256). lia.
Qed.

Lemma byte_of_N_to_N (n : N) (b : byte) :
  (n mod 256)%N = Byte.to_N b -> byte_of_N n = b.
Proof.
  intros H. unfold byte_of_N. rewrite H, Byte.of_to_N. reflexivity.
Qed.

Lemma be32_four (b0 b1 b2 b3 : byte) :
  be32 [b0; b1; b2; b3] =
  (((Byte.to_N b0 * 256 + Byte.to_N b1) * 256 + Byte.to_N b2) * 256 + Byte.to_N b3)%N.
Proof. reflexivity. Qed.

(** Decoding the four bytes of a 32-bit value gives the value back. *)
Lemma be32_be32_bytes (n : N) : u32 n -> be32 (be32_bytes n) = n.
Proof.
  unfold u32, be32_bytes. intros Hn.
  rewrite be32_four, !to_N_byte_of_N.
  zify. Z.to_euclidean_division_equations. lia.
Qed.

(** Four bytes are the encoding of their big-endian value. *)
Lemma be32_bytes_be32 (l : list byte) :
  length l = 4 -> be32_bytes (be32 l) = l.
Proof.
  destruct l as [|b0 [|b1 [|b2 [|b3 [|]]]]]; try discriminate. intros _.
  rewrite be32_four. unfold be32_bytes.
  pose proof (Byte.to_N_bounded b0). pose proof (Byte.to_N_bounded b1).
  pose proof (Byte.to_N_bounded b2). pose proof (Byte.to_N_bounded b3).
  repeat f_equal; apply byte_of_N_to_N;
    zify; Z.to_euclidean_division_equations; lia.
Qed.

Lemma length_header_bytes (h : DatasetHeader) :
  length (header_bytes h) = match h with ImageHeader _ _ _ => 16 | LabelHeader _ => 8 end.
Proof. destruct h; reflexivity. Qed.

(** *** Reading *)

Lemma read_enough (n : nat) (d : FileDecoder) :
  n <= length (remaining d) ->
  exists d', read n d = Some (take n (remaining d), d') /\
             remaining d' = drop n (remaining d).
Proof.
  intros Hn. unfold read. destruct (decide (n <= length (remaining d))); [|lia].
  eexists. split; [reflexivity|].
  unfold remaining. cbn. rewrite drop_drop. reflexivity.
Qed.

Lemma read_short (n : nat) (d : FileDecoder) :
  length (remaining d) < n -> read n d = None.
Proof.
  intros Hn. unfold read. destruct (decide (n <= length (remaining d))); [lia|done].
Qed.

Lemma read_u32_field (d : FileDecoder) (v : N) (rest : list byte) :
  u32 v ->
  remaining d = be32_bytes v ++ rest ->
  exists d', read_u32 d = Some (v, d') /\ remaining d' = rest.
Proof.
  intros Hv Hrem. unfold read_u32.
  destruct (read_enough 4 d) as (d' & -> & Hd').
  { rewrite Hrem, length_app. cbn. lia. }
  exists d'. rewrite Hd', Hrem.
  change (take 4 (be32_bytes v ++ rest)) with (be32_bytes v).
  change (drop 4 (be32_bytes v ++ rest)) with rest.
  rewrite be32_be32_bytes by assumption. split; reflexivity.
Qed.

(** [readHeader] accepts the header of a well-formed file and leaves the
    cursor at the record data. *)
Lemma readHeader_dataset_file (d : FileDecoder) (h : DatasetHeader) (data : list byte) :
  header_fields_u32 h ->
  valid_header h = true ->
  remaining d = dataset_file h data ->
  exists d', readHeader d = inr (h, d') /\ remaining d' = data.
Proof.
  intros Hu Hv Hrem. unfold dataset_file in Hrem. unfold readHeader.
  assert (Him : u32 kImageMagic) by (unfold u32, kImageMagic; lia).
  assert (Hlm : u32 kLabelMagic) by (unfold u32, kLabelMagic; lia).
  destruct h as [n r c|n]; cbn [header_bytes header_fields_u32] in *.
  - destruct Hu as (Hn & Hr & Hc). rewrite <- !app_assoc in Hrem.
    destruct (read_u32_field d _ _ Him Hrem) as (d1 & -> & H1).
    destruct (read_u32_field d1 _ _ Hn H1) as (d2 & -> & H2).
    destruct (read_u32_field d2 _ _ Hr H2) as (d3 & -> & H3).
    destruct (read_u32_field d3 _ _ Hc H3) as (d4 & -> & H4).
    cbn [N.eqb kImageMagic Pos.eqb]. rewrite Hv. eauto.
  - rewrite <- !app_assoc in Hrem.
    destruct (read_u32_field d _ _ Hlm Hrem) as (d1 & -> & H1).
    destruct (read_u32_field d1 _ _ Hu H1) as (d2 & -> & H2).
    change (kLabelMagic =? kImageMagic)%N with false.
    change (kLabelMagic =? kLabelMagic)%N with true. cbn. eauto.
Qed.

(** [readHeader] rejects every stream that does not begin with one of the
    two magic numbers, streams shorter than a magic number included. *)
Lemma readHeader_bad_magic (bs : list byte) :
  take 4 bs <> image_magic_bytes ->
  take 4 bs <> label_magic_bytes ->
  readHeader (mkFileDecoder bs 0) = inl MalformedHeader.
Proof.
  intros Hi Hl. unfold readHeader, read_u32.
  assert (Hrem : remaining (mkFileDecoder bs 0) = bs) by apply drop_0.
  destruct (decide (4 <= length bs)) as [Hlen|Hlen];
    [|rewrite read_short by (rewrite Hrem; lia); reflexivity].
  destruct (read_enough 4 (mkFileDecoder bs 0)) as (d' & -> & _);
    [rewrite Hrem; lia|]. rewrite Hrem.
  assert (Hfour : length (take 4 bs) = 4) by (rewrite length_take; lia).
  destruct (be32 (take 4 bs) =? kImageMagic)%N eqn:Ei.
  { apply N.eqb_eq in Ei. exfalso. apply Hi.
    rewrite <- (be32_bytes_be32 _ Hfour), Ei. reflexivity. }
  destruct (be32 (take 4 bs) =? kLabelMagic)%N eqn:El.
  { apply N.eqb_eq in El. exfalso. apply Hl.
    rewrite <- (be32_bytes_be32 _ Hfour), El. reflexivity. }
  reflexivity.
Qed.

(** *** Records and iterator steps *)

Lemma decode_record_full (h : DatasetHeader) (bytes : list byte) :
  length bytes = record_size h ->
  exists r, decode_record h bytes = Some r /\ record_bytes r = bytes /\ full_record h r.
Proof.
  destruct h as [n r c|n]; cbn.
  - intros Hlen. eexists. split; [reflexivity|]. split; [reflexivity|exact Hlen].
  - destruct bytes as [|b [|]]; try discriminate. intros _.
    eexists. split; [reflexivity|]. split; [reflexivity|exact I].
Qed.

Lemma position_exhausted (h : DatasetHeader) (d : FileDecoder) :
  position h (recordCount h) d = Exhausted h d.
Proof. unfold position. rewrite N.eqb_refl. reflexivity. Qed.

Lemma position_ready (h : DatasetHeader) (index : N) (d : FileDecoder) :
  index <> recordCount h -> position h index d = Ready h index d.
Proof.
  intros Hne. unfold position. apply N.eqb_neq in Hne. rewrite Hne. reflexivity.
Qed.

(** A [next()] with a whole record left at the cursor produces it. *)
Lemma next_ready (path : string) (ct : CompressionType)
    (h : DatasetHeader) (index : N) (d : FileDecoder) :
  record_size h <= length (remaining d) ->
  exists r d',
    next (mkRecordIterator path ct (Ready h index d)) =
      (Produced r, mkRecordIterator path ct (position h (index + 1) d')) /\
    record_bytes r = take (record_size h) (remaining d) /\
    full_record h r /\
    remaining d' = drop (record_size h) (remaining d).
Proof.
  intros Hlen. unfold next. cbn [it_state].
  destruct (read_enough _ _ Hlen) as (d' & -> & Hd').
  destruct (decode_record_full h (take (record_size h) (remaining d)))
    as (r & -> & Hbytes & Hfull).
  { rewrite length_take. lia. }
  exists r, d'. repeat split; assumption.
Qed.

(** A [next()] with less than a record left fails and is terminal. *)
Lemma next_truncated (path : string) (ct : CompressionType)
    (h : DatasetHeader) (index : N) (d : FileDecoder) :
  length (remaining d) < record_size h ->
  next (mkRecordIterator path ct (Ready h index d)) =
    (Err TruncatedRecord, mkRecordIterator path ct (Failed TruncatedRecord)).
Proof.
  intros Hlen. unfold next. cbn [it_state]. rewrite read_short by assumption.
  reflexivity.
Qed.

Lemma length_chunks (k m : nat) (l : list byte) : length (chunks k m l) = m.
Proof. revert l. induction m as [|m IH]; intros l; cbn; [|rewrite IH]; reflexivity. Qed.

Lemma concat_chunks (k m : nat) (l : list byte) :
  m * k <= length l -> concat (chunks k m l) = take (m * k) l.
Proof.
  revert l. induction m as [|m IH]; intros l Hlen; cbn [chunks concat].
  - reflexivity.
  - rewrite IH by (rewrite length_drop; lia).
    rewrite take_take_drop. f_equal.
Qed.

(** *** Iterating to exhaustion *)

(** With [m] records still to produce and at least [m] records' worth of
    bytes at the cursor, the iteration produces them chunk by chunk and
    ends with end-of-sequence. *)
Lemma drain_complete (m : nat) :
  forall (h : DatasetHeader) (index : N) (d : FileDecoder)
         (path : string) (ct : CompressionType) (fuel : nat),
  (index + N.of_nat m = recordCount h)%N ->
  m * record_size h <= length (remaining d) ->
  m < fuel ->
  exists rs,
    drain fuel (mkRecordIterator path ct (position h index d)) = Some (rs, EndOfSequence) /\
    map record_bytes rs = chunks (record_size h) m (remaining d) /\
    Forall (full_record h) rs.
Proof.
  induction m as [|m IH]; intros h index d path ct fuel Hidx Hlen Hfuel;
    (destruct fuel as [|fuel]; [lia|]).
  - replace index with (recordCount h) by lia. rewrite position_exhausted.
    exists []. cbn. repeat split. constructor.
  - rewrite position_ready by lia.
    destruct (next_ready path ct h index d) as (r & d' & Hnext & Hbytes & Hfull & Hd');
      [lia|].
    destruct (IH h (index + 1)%N d' path ct fuel) as (rs & Hdrain & Hrs & Hall).
    { lia. }
    { rewrite Hd', length_drop. lia. }
    { lia. }
    exists (r :: rs). cbn [drain]. rewrite Hnext, Hdrain.
    split; [reflexivity|]. split.
    + cbn [map chunks]. rewrite Hbytes, Hrs, Hd'. reflexivity.
    + constructor; assumption.
Qed.

(** With [m] whole records at the cursor followed by a partial one, the
    iteration produces the [m] whole records and then fails. *)
Lemma drain_truncated (m : nat) :
  forall (h : DatasetHeader) (index : N) (d : FileDecoder)
         (path : string) (ct : CompressionType) (fuel : nat),
  (index + N.of_nat (S m) = recordCount h)%N ->
  m * record_size h <= length (remaining d) ->
  length (remaining d) < S m * record_size h ->
  m < fuel ->
  exists rs,
    drain fuel (mkRecordIterator path ct (position h index d)) =
      Some (rs, Err TruncatedRecord) /\
    length rs = m /\
    Forall (full_record h) rs.
Proof.
  induction m as [|m IH]; intros h index d path ct fuel Hidx Hlo Hhi Hfuel;
    (destruct fuel as [|fuel]; [lia|]); rewrite position_ready by lia.
  - exists []. cbn [drain]. rewrite next_truncated by lia.
    repeat split. constructor.
  - destruct (next_ready path ct h index d) as (r & d' & Hnext & Hbytes & Hfull & Hd');
      [lia|].
    destruct (IH h (index + 1)%N d' path ct fuel) as (rs & Hdrain & Hrs & Hall).
    { lia. }
    { rewrite Hd', length_drop. lia. }
    { rewrite Hd', length_drop. lia. }
    { lia. }
    exists (r :: rs). cbn [drain]. rewrite Hnext, Hdrain.
    split; [reflexivity|]. split; [cbn; lia|constructor; assumption].
Qed.

Lemma run_next (fs : gmap string StoredFile) (rest : list Call) (it : RecordIterator) :
  fst (run fs (CallNext :: rest) it) =
  fst (next it) :: fst (run fs rest (snd (next it))).
Proof.
  cbn [run]. destruct (next it) as [o it']. cbn [fst snd].
  destruct (run fs rest it') as [os it'']. reflexivity.
Qed.

(** The outcomes of the [next()] calls behind a finished [drain]. *)
Lemma drain_run (fs : gmap string StoredFile) (fuel : nat) :
  forall (it : RecordIterator) (rs : list Record_) (o : Outcome),
  drain fuel it = Some (rs, o) ->
  fst (run fs (replicate (S (length rs)) CallNext) it) = map Produced rs ++ [o] /\
  (forall r, o <> Produced r).
Proof.
  induction fuel as [|fuel IH]; intros it rs o; cbn [drain]; [discriminate|].
  destruct (next it) as [o1 it1] eqn:Hnext.
  destruct o1 as [r| |e].
  - destruct (drain fuel it1) as [[rs1 o1]|] eqn:Hdrain; [|discriminate].
    intros [= <- <-]. destruct (IH _ _ _ Hdrain) as [Hrun Ho].
    split; [|exact Ho].
    cbn [length]. change (replicate (S (S (length rs1))) CallNext)
      with (CallNext :: replicate (S (length rs1)) CallNext).
    rewrite run_next, Hnext. cbn [fst snd]. rewrite Hrun. reflexivity.
  - intros [= <- <-]. split; [|discriminate].
    change (replicate (S (length [])) CallNext) with [CallNext].
    rewrite run_next, Hnext. reflexivity.
  - intros [= <- <-]. split; [|discriminate].
    change (replicate (S (length [])) CallNext) with [CallNext].
    rewrite run_next, Hnext. reflexivity.
Qed.

(** *** Opening a file *)

Lemma start_stored (fs : gmap string StoredFile) (path : string)
    (ct : CompressionType) (bs : list byte) :
  fs !! path = Some (mkStoredFile ct bs) ->
  start fs path ct =
  mkRecordIterator path ct
    match readHeader (mkFileDecoder bs 0) with
    | inl e => Failed e
    | inr (h, d') => position h 0 d'
    end.
Proof.
  intros Hfs. unfold start, open_and_readHeader, open. rewrite Hfs. cbn.
  destruct (decide (ct = ct)); [reflexivity|congruence].
Qed.

Lemma start_dataset_file (fs : gmap string StoredFile) (path : string)
    (ct : CompressionType) (h : DatasetHeader) (data : list byte) :
  fs !! path = Some (mkStoredFile ct (dataset_file h data)) ->
  header_fields_u32 h ->
  valid_header h = true ->
  exists d, start fs path ct = mkRecordIterator path ct (position h 0 d) /\
            remaining d = data.
Proof.
  intros Hfs Hu Hv. rewrite (start_stored _ _ _ _ Hfs).
  destruct (readHeader_dataset_file (mkFileDecoder (dataset_file h data) 0) h data Hu Hv)
    as (d & -> & Hd); [apply drop_0|].
  exists d. split; [reflexivity|exact Hd].
Qed.

(** A well-formed file decodes to exactly [recordCount] full records,
    which are its data cut into record-sized pieces in file order. *)
Lemma drain_well_formed (fs : gmap string StoredFile) (path : string)
    (ct : CompressionType) (h : DatasetHeader) (data : list byte) (fuel : nat) :
  fs !! path = Some (mkStoredFile ct (dataset_file h data)) ->
  well_formed h data ->
  N.to_nat (recordCount h) < fuel ->
  exists rs,
    drain fuel (start fs path ct) = Some (rs, EndOfSequence) /\
    length rs = N.to_nat (recordCount h) /\
    Forall (full_record h) rs /\
    concat (map record_bytes rs) = data.
Proof.
  intros Hfs (Hu & Hv & Hlen) Hfuel.
  destruct (start_dataset_file _ _ _ _ _ Hfs Hu Hv) as (d & -> & Hd).
  destruct (drain_complete (N.to_nat (recordCount h)) h 0 d path ct fuel)
    as (rs & Hdrain & Hrs & Hall); [lia|rewrite Hd; lia|lia|].
  exists rs. split; [exact Hdrain|]. split; [|split; [exact Hall|]].
  - rewrite <- (length_map record_bytes), Hrs. apply length_chunks.
  - rewrite Hrs, concat_chunks by (rewrite Hd; lia).
    rewrite Hd. apply take_ge. lia.
Qed.

(** *** Calls on an iterator *)

Lemma next_path (it : RecordIterator) :
  it_path (snd (next it)) = it_path it /\
  it_compression (snd (next it)) = it_compression it.
Proof.
  unfold next. destruct (it_state it) as [h index d|h d|e]; [|split; reflexivity..].
  destruct (read (record_size h) d) as [[bytes d']|]; [|split; reflexivity].
  destruct (decode_record h bytes); split; reflexivity.
Qed.

(** Whatever is called on it, an iterator stays on its file. *)
Lemma run_path (fs : gmap string StoredFile) (calls : list Call) :
  forall it : RecordIterator,
  it_path (snd (run fs calls it)) = it_path it /\
  it_compression (snd (run fs calls it)) = it_compression it.
Proof.
  induction calls as [|[|] calls IH]; intros it; cbn [run].
  - split; reflexivity.
  - destruct (next it) as [o it'] eqn:Hnext.
    destruct (run fs calls it') as [os it''] eqn:Hrun. cbn [snd].
    destruct (IH it') as [Hp Hc]. rewrite Hrun in Hp, Hc. cbn [snd] in Hp, Hc.
    destruct (next_path it) as [Hp' Hc']. rewrite Hnext in Hp', Hc'.
    cbn [snd] in Hp', Hc'. split; congruence.
  - destruct (IH (restart fs it)) as [Hp Hc]. split; [rewrite Hp|rewrite Hc]; reflexivity.
Qed.

Lemma restart_after_run (fs : gmap string StoredFile) (path : string)
    (ct : CompressionType) (calls : list Call) :
  restart fs (snd (run fs calls (start fs path ct))) = start fs path ct.
Proof.
  unfold restart. destruct (run_path fs calls (start fs path ct)) as [-> ->].
  reflexivity.
Qed.

(** An iterator whose open + readHeader path fails reports that error on
    every [next()], restarts included. *)
Lemma run_failed (fs : gmap string StoredFile) (e : Error) (calls : list Call) :
  forall it : RecordIterator,
  it_state it = Failed e ->
  open_and_readHeader fs (it_path it) (it_compression it) = Failed e ->
  Forall (fun o => o = Err e) (fst (run fs calls it)).
Proof.
  induction calls as [|[|] calls IH]; intros it Hst Hopen; cbn [run].
  - constructor.
  - assert (Hnext : next it = (Err e, it)) by (unfold next; rewrite Hst; reflexivity).
    rewrite Hnext. specialize (IH it Hst Hopen).
    destruct (run fs calls it) as [os it']. cbn [fst] in *.
    constructor; [reflexivity|exact IH].
  - apply IH; cbn; exact Hopen.
Qed.

(** *** Truncation *)

Lemma record_size_pos (h : DatasetHeader) :
  valid_header h = true -> 0 < record_size h.
Proof.
  destruct h as [n r c|n]; cbn; [|lia].
  intros Hv. apply N.ltb_lt in Hv. lia.
Qed.

Lemma truncate_one_dataset_file (h : DatasetHeader) (data : list byte) :
  0 < length data ->
  truncate_one (dataset_file h data) = dataset_file h (take (length data - 1) data).
Proof.
  intros Hlen. unfold truncate_one, dataset_file.
  rewrite length_app, take_app_ge by lia. do 2 f_equal. lia.
Qed.

(** *** The claims *)

(** C5: for every well-formed image file, iterating to exhaustion
    produces exactly [recordCount] records, each of exactly rows×cols
    bytes (and together they are the pixel data, in file order). *)
Theorem image_file_decodes_to_recordCount_records
    (fs : gmap string StoredFile) (path : string) (ct : CompressionType)
    (n rows cols : N) (pixels : list byte) (fuel : nat) :
  fs !! path = Some (mkStoredFile ct (dataset_file (ImageHeader n rows cols) pixels)) ->
  well_formed (ImageHeader n rows cols) pixels ->
  N.to_nat n < fuel ->
  exists rs,
    drain fuel (start fs path ct) = Some (rs, EndOfSequence) /\
    length rs = N.to_nat n /\
    Forall (fun rec => exists px, rec = ImageRecord px /\
                                  length px = N.to_nat (rows * cols)) rs /\
    concat (map record_bytes rs) = pixels.
Proof.
  intros Hfs Hwf Hfuel.
  destruct (drain_well_formed _ _ _ _ _ _ Hfs Hwf Hfuel) as (rs & Hdrain & Hlen & Hall & Hcat).
  exists rs. split; [exact Hdrain|]. split; [exact Hlen|]. split; [|exact Hcat].
  eapply Forall_impl; [exact Hall|].
  intros [px|b]; cbn; [eauto|contradiction].
Qed.

Lemma image_file_decodes_to_recordCount_records_witness :
  exists rs,
    drain 2 (start sample_fs "images.gz" GZIP) = Some (rs, EndOfSequence) /\
    length rs = N.to_nat 1 /\
    Forall (fun rec => exists px, rec = ImageRecord px /\
                                  length px = N.to_nat (2 * 2)) rs /\
    concat (map record_bytes rs) = sample_pixels.
Proof.
  apply (image_file_decodes_to_recordCount_records sample_fs "images.gz" GZIP 1 2 2).
  - vm_compute; reflexivity.
  - unfold well_formed, header_fields_u32, u32. cbn. repeat split; lia.
  - cbn; lia.
Defined.

(** C6: for every well-formed file, [restart()] after any calls on the
    iterator, followed by a full iteration, yields the very records of the
    first full iteration. *)
Theorem restart_replays_first_iteration
    (fs : gmap string StoredFile) (path : string) (ct : CompressionType)
    (h : DatasetHeader) (data : list byte) (calls : list Call) (fuel : nat) :
  fs !! path = Some (mkStoredFile ct (dataset_file h data)) ->
  well_formed h data ->
  N.to_nat (recordCount h) < fuel ->
  exists rs,
    drain fuel (start fs path ct) = Some (rs, EndOfSequence) /\
    drain fuel (restart fs (snd (run fs calls (start fs path ct)))) =
      Some (rs, EndOfSequence) /\
    length rs = N.to_nat (recordCount h).
Proof.
  intros Hfs Hwf Hfuel.
  destruct (drain_well_formed _ _ _ _ _ _ Hfs Hwf Hfuel) as (rs & Hdrain & Hlen & _).
  exists rs. rewrite restart_after_run. repeat split; assumption.
Qed.

Lemma restart_replays_first_iteration_witness :
  exists rs,
    drain 2 (start sample_fs "images.gz" GZIP) = Some (rs, EndOfSequence) /\
    drain 2 (restart sample_fs
               (snd (run sample_fs [CallNext; CallNext; CallRestart; CallNext]
                       (start sample_fs "images.gz" GZIP)))) =
      Some (rs, EndOfSequence) /\
    length rs = N.to_nat 1.
Proof.
  apply (restart_replays_first_iteration sample_fs "images.gz" GZIP
           (ImageHeader 1 2 2) sample_pixels).
  - vm_compute; reflexivity.
  - unfold well_formed, header_fields_u32, u32. cbn. repeat split; lia.
  - cbn; lia.
Defined.

(** C7: for every well-formed file with at least one record, cut one
    byte short of the end of its last record, the iteration produces the
    earlier records in full and the final [next()], the one for the last
    record, fails with [TruncatedRecord]: no short record comes out. *)
Theorem truncated_file_fails_with_TruncatedRecord
    (fs : gmap string StoredFile) (path : string) (ct : CompressionType)
    (h : DatasetHeader) (data : list byte) (fuel : nat) :
  fs !! path = Some (mkStoredFile ct (truncate_one (dataset_file h data))) ->
  well_formed h data ->
  (0 < recordCount h)%N ->
  N.to_nat (recordCount h) <= fuel ->
  exists rs,
    drain fuel (start fs path ct) = Some (rs, Err TruncatedRecord) /\
    S (length rs) = N.to_nat (recordCount h) /\
    Forall (full_record h) rs /\
    fst (run fs (replicate (N.to_nat (recordCount h)) CallNext) (start fs path ct)) =
      map Produced rs ++ [Err TruncatedRecord].
Proof.
  intros Hfs (Hu & Hv & Hlen) Hpos Hfuel.
  pose proof (record_size_pos h Hv) as Hk.
  destruct (N.to_nat (recordCount h)) as [|m] eqn:Hm; [lia|].
  rewrite truncate_one_dataset_file in Hfs by lia.
  destruct (start_dataset_file _ _ _ _ _ Hfs Hu Hv) as (d & Hstart & Hd).
  destruct (drain_truncated m h 0 d path ct fuel) as (rs & Hdrain & Hrs & Hall).
  { lia. }
  { rewrite Hd, length_take. lia. }
  { rewrite Hd, length_take. lia. }
  { lia. }
  exists rs. rewrite Hstart. split; [exact Hdrain|].
  split; [lia|]. split; [exact Hall|].
  rewrite <- Hrs. exact (proj1 (drain_run fs _ _ _ _ Hdrain)).
Qed.

Lemma truncated_file_fails_with_TruncatedRecord_witness :
  exists rs,
    drain 1 (start sample_fs "cut.gz" GZIP) = Some (rs, Err TruncatedRecord) /\
    S (length rs) = N.to_nat 1 /\
    Forall (full_record (ImageHeader 1 2 2)) rs /\
    fst (run sample_fs (replicate (N.to_nat 1) CallNext) (start sample_fs "cut.gz" GZIP)) =
      map Produced rs ++ [Err TruncatedRecord].
Proof.
  apply (truncated_file_fails_with_TruncatedRecord sample_fs "cut.gz" GZIP
           (ImageHeader 1 2 2) sample_pixels).
  - vm_compute; reflexivity.
  - unfold well_formed, header_fields_u32, u32. cbn. repeat split; lia.
  - cbn; lia.
  - cbn; lia.
Defined.

(** C8: for every input that does not begin with one of the two magic
    numbers, [readHeader()] fails with [MalformedHeader], and whatever is
    called on the iterator afterwards, no [next()] produces a record. *)
Theorem bad_magic_never_produces_a_record
    (fs : gmap string StoredFile) (path : string) (ct : CompressionType)
    (bs : list byte) :
  fs !! path = Some (mkStoredFile ct bs) ->
  take 4 bs <> image_magic_bytes ->
  take 4 bs <> label_magic_bytes ->
  (exists d, open fs path ct = inr d /\ readHeader d = inl MalformedHeader) /\
  forall calls : list Call,
    Forall (fun o => o = Err MalformedHeader /\ forall r, o <> Produced r)
      (fst (run fs calls (start fs path ct))).
Proof.
  intros Hfs Hi Hl.
  pose proof (readHeader_bad_magic bs Hi Hl) as Hhdr.
  assert (Hopen : open fs path ct = inr (mkFileDecoder bs 0)).
  { unfold open. rewrite Hfs. cbn. destruct (decide (ct = ct)); [reflexivity|congruence]. }
  split; [eauto|].
  intros calls.
  assert (Hst : open_and_readHeader fs path ct = Failed MalformedHeader).
  { unfold open_and_readHeader. rewrite Hopen, Hhdr. reflexivity. }
  eapply Forall_impl.
  - apply (run_failed fs MalformedHeader calls (start fs path ct)); exact Hst.
  - intros o ->. split; [reflexivity|discriminate].
Qed.

Lemma bad_magic_never_produces_a_record_witness :
  (exists d, open sample_fs "corrupt" NoCompression = inr d /\
             readHeader d = inl MalformedHeader) /\
  forall calls : list Call,
    Forall (fun o => o = Err MalformedHeader /\ forall r, o <> Produced r)
      (fst (run sample_fs calls (start sample_fs "corrupt" NoCompression))).
Proof.
  apply (bad_magic_never_produces_a_record sample_fs "corrupt" NoCompression
           sample_corrupt_file).
  - vm_compute; reflexivity.
  - vm_compute; discriminate.
  - vm_compute; discriminate.
Defined.

End Decoder.

(** * Further properties of the two shape functions *)

Section ShapeFunctions.

Import tensorflow tensorflow.shape_inference.
Local Open Scope list_scope.

Lemma label_ShapeFn_no_slot (c : InferenceContext) :
  num_outputs c = 0 -> MNISTLabelDataset_ShapeFn c = None.
Proof.
  intros Hout. unfold MNISTLabelDataset_ShapeFn, bind, MakeShape, set_output, ret.
  cbn. unfold num_outputs in Hout. rewrite Hout.
  destruct (decide (0 < 0)); [lia | reflexivity].
Qed.

(** A registered shape function that returns found output slot 0. *)
Lemma registered_fn_needs_slot
    (name : string) (data : OpRegistrationData) (fn : OpShapeInferenceFn)
    (c : InferenceContext) :
  registered name = Some data ->
  shape_inference_fn data = Some fn ->
  is_Some (fn c) ->
  0 < num_outputs c.
Proof.
  intros Hreg Hfn Hrun.
  destruct (decide (0 < num_outputs c)) as [|Hn]; [assumption|exfalso].
  assert (Hz : num_outputs c = 0) by lia.
  destruct (registered_cases _ _ Hreg) as [[-> ->]|[-> ->]];
    cbn in Hfn; injection Hfn as <-.
  - rewrite image_ShapeFn_no_slot in Hrun by assumption. destruct Hrun; discriminate.
  - rewrite label_ShapeFn_no_slot in Hrun by assumption. destruct Hrun; discriminate.
Qed.

(** X1: a run of either registered shape function writes output slot 0
    and nothing else: the input shapes and input values are as before,
    the number of output slots is as before and every other slot keeps
    its content, and the arena only grows, by exactly one shape, so
    every handle made earlier still denotes what it did. *)
Theorem shape_fns_write_only_output_0
    (name : string) (data : OpRegistrationData) (fn : OpShapeInferenceFn)
    (c c' : InferenceContext) (st : Status) :
  registered name = Some data ->
  shape_inference_fn data = Some fn ->
  fn c = Some (st, c') ->
  inputs_ c' = inputs_ c /\
  input_tensors_ c' = input_tensors_ c /\
  num_outputs c' = num_outputs c /\
  (forall i, i <> 0 -> outputs_ c' !! i = outputs_ c !! i) /\
  all_dims_ c `prefix_of` all_dims_ c' /\
  all_shapes_ c `prefix_of` all_shapes_ c' /\
  length (all_shapes_ c') = S (length (all_shapes_ c)).
Proof.
  intros Hreg Hfn Hrun.
  assert (Hslot : 0 < num_outputs c).
  { eapply registered_fn_needs_slot; [exact Hreg|exact Hfn|]. rewrite Hrun. eauto. }
  destruct (registered_cases _ _ Hreg) as [[-> ->]|[-> ->]];
    cbn in Hfn; injection Hfn as <-.
  - rewrite image_ShapeFn_run in Hrun by assumption. injection Hrun as <- <-.
    unfold num_outputs. cbn [inputs_ input_tensors_ outputs_ all_dims_ all_shapes_].
    repeat split.
    + apply length_insert.
    + intros i Hi. apply list_lookup_insert_ne. congruence.
    + rewrite <- app_assoc. apply prefix_app_r. reflexivity.
    + apply prefix_app_r. reflexivity.
    + rewrite length_app. cbn. lia.
  - rewrite label_ShapeFn_run in Hrun by assumption. injection Hrun as <- <-.
    unfold num_outputs. cbn [inputs_ input_tensors_ outputs_ all_dims_ all_shapes_].
    repeat split.
    + apply length_insert.
    + intros i Hi. apply list_lookup_insert_ne. congruence.
    + reflexivity.
    + apply prefix_app_r. reflexivity.
    + rewrite length_app. cbn. lia.
Qed.

Lemma shape_fns_write_only_output_0_witness :
  exists c',
    MNISTLabelDataset_ShapeFn sample_context_two_slots = Some (Status_OK, c') /\
    outputs_ c' !! 1 = outputs_ sample_context_two_slots !! 1 /\
    all_dims_ sample_context_two_slots `prefix_of` all_dims_ c'.
Proof.
  exists (mkInferenceContext [0; 1] [None; None] [Some 2; Some 1] [mkDimension 7]
            [mkShape 0 []; mkShape 1 [0]; mkShape 0 []]).
  split; [vm_compute; reflexivity|].
  pose proof (shape_fns_write_only_output_0 "MNISTLabelDataset"
    (mkOpRegistrationData
       (mkOpDef "MNISTLabelDataset" dataset_inputs dataset_outputs true)
       (Some MNISTLabelDataset_ShapeFn))
    MNISTLabelDataset_ShapeFn sample_context_two_slots
    (mkInferenceContext [0; 1] [None; None] [Some 2; Some 1] [mkDimension 7]
       [mkShape 0 []; mkShape 1 [0]; mkShape 0 []])
    Status_OK) as H.
  destruct H as (_ & _ & _ & Hslots & Hdims & _).
  - vm_compute; reflexivity.
  - reflexivity.
  - vm_compute; reflexivity.
  - split; [apply Hslots; discriminate|exact Hdims].
Defined.

(** X2: the shape that the image function stores in output 0 is a new
    one, and its two dimensions are two different new handles: the two
    unknown extents are tied neither to each other nor to any dimension
    or shape that was in the context before. *)
Theorem image_ShapeFn_dimensions_are_fresh_and_distinct (c : InferenceContext) :
  0 < num_outputs c ->
  exists c' s d0 d1,
    MNISTImageDataset_ShapeFn c = Some (Status_OK, c') /\
    output c' 0 = Some s /\
    length (all_shapes_ c) <= s /\
    dims_ <$> all_shapes_ c' !! s = Some [d0; d1] /\
    d0 <> d1 /\
    length (all_dims_ c) <= d0 /\
    length (all_dims_ c) <= d1 /\
    Value c' d0 = Some kUnknownDim /\
    Value c' d1 = Some kUnknownDim.
Proof.
  intros Hslot. eexists _, _, _, _.
  split; [apply image_ShapeFn_run; assumption|].
  unfold output, Value. cbn [inputs_ input_tensors_ outputs_ all_dims_ all_shapes_].
  split; [rewrite list_lookup_insert_eq by exact Hslot; reflexivity|].
  split; [reflexivity|].
  split; [rewrite list_lookup_middle by reflexivity; reflexivity|].
  rewrite length_app. cbn [length].
  split; [lia|]. split; [lia|]. split; [lia|]. split.
  - rewrite lookup_app_l by (rewrite length_app; cbn [length]; lia).
    rewrite list_lookup_middle by reflexivity. reflexivity.
  - rewrite (list_lookup_middle _ [] _ (length (all_dims_ c) + 1))
      by (rewrite length_app; reflexivity).
    reflexivity.
Qed.

Lemma image_ShapeFn_dimensions_are_fresh_and_distinct_witness :
  exists c' s d0 d1,
    MNISTImageDataset_ShapeFn sample_context' = Some (Status_OK, c') /\
    output c' 0 = Some s /\
    length (all_shapes_ sample_context') <= s /\
    dims_ <$> all_shapes_ c' !! s = Some [d0; d1] /\
    d0 <> d1 /\
    length (all_dims_ sample_context') <= d0 /\
    length (all_dims_ sample_context') <= d1 /\
    Value c' d0 = Some kUnknownDim /\
    Value c' d1 = Some kUnknownDim.
Proof.
  apply (image_ShapeFn_dimensions_are_fresh_and_distinct sample_context').
  cbn; lia.
Defined.

(** X3: a run of a registered shape function on a context of its op
    leaves a context of that op, and running the function again on the
    result gives the same status and the same output shape: inference can
    be repeated. *)
Theorem shape_fns_can_be_rerun
    (name : string) (data : OpRegistrationData) (fn : OpShapeInferenceFn)
    (c : InferenceContext) :
  registered name = Some data ->
  shape_inference_fn data = Some fn ->
  context_for (op_def data) c ->
  exists st c',
    fn c = Some (st, c') /\
    context_for (op_def data) c' /\
    inferred_output fn c' = inferred_output fn c.
Proof.
  intros Hreg Hfn [Hin Hout].
  destruct (registered_cases _ _ Hreg) as [[-> ->]|[-> ->]];
    cbn in Hfn, Hin, Hout; injection Hfn as <-.
  - eexists _, _. split; [apply image_ShapeFn_run; lia|].
    split.
    + split; unfold num_inputs, num_outputs; cbn; [exact Hin|].
      rewrite length_insert. exact Hout.
    + rewrite !image_inferred; [reflexivity|lia|].
      unfold num_outputs. cbn. rewrite length_insert. fold (num_outputs c). lia.
  - eexists _, _. split; [apply label_ShapeFn_run; lia|].
    split.
    + split; unfold num_inputs, num_outputs; cbn; [exact Hin|].
      rewrite length_insert. exact Hout.
    + rewrite !label_inferred; [reflexivity|lia|].
      unfold num_outputs. cbn. rewrite length_insert. fold (num_outputs c). lia.
Qed.

Lemma shape_fns_can_be_rerun_witness :
  exists st c',
    MNISTImageDataset_ShapeFn sample_context = Some (st, c') /\
    context_for (mkOpDef "MNISTImageDataset" dataset_inputs dataset_outputs true) c' /\
    inferred_output MNISTImageDataset_ShapeFn c' =
      inferred_output MNISTImageDataset_ShapeFn sample_context.
Proof.
  apply (shape_fns_can_be_rerun "MNISTImageDataset"
    (mkOpRegistrationData
       (mkOpDef "MNISTImageDataset" dataset_inputs dataset_outputs true)
       (Some MNISTImageDataset_ShapeFn))).
  - vm_compute; reflexivity.
  - reflexivity.
  - split; reflexivity.
Defined.

End ShapeFunctions.
